(** * Exporter parser registry and endpoint port extraction

    A shallow embedding of
    [internal/manifests/collector/parser/exporter/exporter.go]:
    the two package-level builder tables ([registry], [authzRegistry]) with
    their lookup and registration functions, and the helpers that pull a
    service port out of an exporter's ["endpoint"] setting.

    Go strings are byte sequences and are modelled as [string] (a list of
    8-bit [ascii]); Go's [int64]/[int32] are modelled as [Z] with the
    conversions written out; Go maps are stdpp [gmap]s; the logger is a sink
    of log entries threaded through the functions that write to it. *)

From Stdlib Require Import ZArith Ascii String Lia.
From stdpp Require Import base option countable gmap strings list fin_maps.

Local Open Scope string_scope.
Local Open Scope Z_scope.
Local Open Scope list_scope.

#[local] Set Warnings "-register-all".
#[local] Set Default Proof Using "Type".

(** ** Bytes and strings *)

(** ['0' <= c && c <= '9'] on a byte. *)
Definition is_digit (c : ascii) : bool :=
  ((48 <=? N_of_ascii c) && (N_of_ascii c <=? 57))%N.

(** [c - '0'] for a digit byte. *)
Definition digit_val (c : ascii) : Z := Z.of_N (N_of_ascii c) - 48.

Definition colon : ascii := ":"%char.

(** The double-quote byte. *)
Definition dquote : ascii := ascii_of_nat 34.

Fixpoint all_digits (s : string) : bool :=
  match s with
  | EmptyString => true
  | String c s' => is_digit c && all_digits s'
  end.

Definition starts_with_digit (s : string) : bool :=
  match s with
  | EmptyString => false
  | String c _ => is_digit c
  end.

(** The value of a digit string in positional notation, most significant
    digit first.  This is the reference meaning of "base-10 value"; the
    parser below accumulates its result differently. *)
Fixpoint decimal_value (s : string) : Z :=
  match s with
  | EmptyString => 0
  | String c s' => digit_val c * 10 ^ Z.of_nat (String.length s') + decimal_value s'
  end.

(** ** Go errors *)

Inductive StrconvErr : Type :=
| ErrRange
| ErrSyntax.

(** [errorString] is what [errors.New] and [fmt.Errorf] build; [NumError]
    is [*strconv.NumError]. *)
Inductive GoError : Type :=
| errorString (msg : string)
| NumError (Func : string) (Num : string) (Err : StrconvErr).

Definition StrconvErr_text (e : StrconvErr) : string :=
  match e with
  | ErrRange => "value out of range"
  | ErrSyntax => "invalid syntax"
  end.

(** The [Error()] method. [strconv] quotes the offending input; for the
    digit strings that reach it here quoting adds only the two quotes. *)
Definition Error (e : GoError) : string :=
  match e with
  | errorString msg => msg
  | NumError fn num err =>
      "strconv." +:+ fn +:+ ": parsing " +:+ String dquote (num +:+ String dquote "")
        +:+ ": " +:+ StrconvErr_text err
  end.

(** ** [strconv.ParseInt] in base 10 *)

Module strconv.

Definition maxUint64 : Z := 2 ^ 64 - 1.

(** Arithmetic on [uint64] wraps around. *)
Definition u64 (z : Z) : Z := z mod 2 ^ 64.

(** The digit loop of [ParseUint] for [base = 10]: [n] is the value
    accumulated so far, [maxVal = 1<<bitSize - 1]. *)
Fixpoint ParseUint_loop (maxVal : Z) (s : string) (n : Z) : Z * option StrconvErr :=
  match s with
  | EmptyString => (n, None)
  | String c s' =>
      if is_digit c then
        let d := digit_val c in
        let cutoff := maxUint64 / 10 + 1 in
        if cutoff <=? n then (maxVal, Some ErrRange)
        else
          let n10 := u64 (n * 10) in
          let n1 := u64 (n10 + d) in
          if (n1 <? n10) || (maxVal <? n1) then (maxVal, Some ErrRange)
          else ParseUint_loop maxVal s' n1
      else (0, Some ErrSyntax)
  end.

(** [ParseUint(s, 10, bitSize)] for [0 < bitSize <= 64]. *)
Definition ParseUint10 (s : string) (bitSize : Z) : Z * option GoError :=
  match s with
  | EmptyString => (0, Some (NumError "ParseUint" s ErrSyntax))
  | _ =>
      let maxVal := 2 ^ bitSize - 1 in
      match ParseUint_loop maxVal s 0 with
      | (n, None) => (n, None)
      | (n, Some e) => (n, Some (NumError "ParseUint" s e))
      end
  end.

(** [ParseInt(s, 10, bitSize)] for [0 < bitSize <= 64]: an optional sign,
    then [ParseUint], then the range check against [1 << (bitSize-1)]. *)
Definition ParseInt10 (s0 : string) (bitSize : Z) : Z * option GoError :=
  match s0 with
  | EmptyString => (0, Some (NumError "ParseInt" s0 ErrSyntax))
  | String c0 tl =>
      let '(neg, s) :=
        if Ascii.eqb c0 "+"%char then (false, tl)
        else if Ascii.eqb c0 "-"%char then (true, tl)
        else (false, s0) in
      let cutoff := 2 ^ (bitSize - 1) in
      let checked (un : Z) : Z * option GoError :=
        if negb neg && (cutoff <=? un) then
          (cutoff - 1, Some (NumError "ParseInt" s0 ErrRange))
        else if neg && (cutoff <? un) then
          (- cutoff, Some (NumError "ParseInt" s0 ErrRange))
        else ((if neg then - un else un), None) in
      match ParseUint10 s bitSize with
      | (un, None) => checked un
      | (un, Some (NumError _ _ ErrRange)) => checked un
      | (_, Some _) => (0, Some (NumError "ParseInt" s0 ErrSyntax))
      end
  end.

End strconv.

(** ** The pattern [":[0-9]+"] *)

Module regexp.

(** The longest run of digits at the front of [s], and what follows it:
    the greedy [[0-9]+] (or nothing when [s] does not start with a digit). *)
Fixpoint span_digits (s : string) : string * string :=
  match s with
  | EmptyString => (EmptyString, EmptyString)
  | String c s' =>
      if is_digit c then
        let '(ds, rest) := span_digits s' in (String c ds, rest)
      else (EmptyString, s)
  end.

(** An anchored match of [":[0-9]+"] at the front of [s]. *)
Definition match_here (s : string) : option string :=
  match s with
  | EmptyString => None
  | String c s' =>
      if Ascii.eqb c colon then
        match span_digits s' with
        | (EmptyString, _) => None
        | (ds, _) => Some (String colon ds)
        end
      else None
  end.

(** [r.FindString(s)] for [r = ":[0-9]+"]: the text of the leftmost
    match, found by trying each start position from left to right; the
    empty string if there is none. *)
Fixpoint FindString (s : string) : string :=
  match match_here s with
  | Some m => m
  | None =>
      match s with
      | EmptyString => EmptyString
      | String _ s' => FindString s'
      end
  end.

(** [r.MatchString(s)]: is there a match anywhere in [s]. *)
Fixpoint MatchString (s : string) : bool :=
  match match_here s with
  | Some _ => true
  | None =>
      match s with
      | EmptyString => false
      | String _ s' => MatchString s'
      end
  end.

End regexp.

(** [strings.Replace(s, old, "", -1)] for a one-byte [old]: every
    occurrence of the byte is dropped. *)
Fixpoint strings_Replace_drop (s : string) (old : ascii) : string :=
  match s with
  | EmptyString => EmptyString
  | String c s' =>
      if Ascii.eqb c old then strings_Replace_drop s' old
      else String c (strings_Replace_drop s' old)
  end.

(** Conversion [int32(x)] of an [int64]: keep the low 32 bits, signed. *)
Definition int32 (x : Z) : Z := (x + 2 ^ 31) mod 2 ^ 32 - 2 ^ 31.

Definition maxInt32 : Z := 2147483647.

Definition errPortEmpty : GoError := errorString "port should not be empty".

(** [portFromEndpoint]: the pair [(port, err)] the Go function returns,
    [None] standing for a [nil] error. *)
Definition portFromEndpoint (endpoint : string) : Z * option GoError :=
  let '(port, err) :=
    if regexp.MatchString endpoint then
      strconv.ParseInt10 (strings_Replace_drop (regexp.FindString endpoint) colon) 32
    else (0, None) in
  match err with
  | Some e => (0, Some e)
  | None =>
      if port =? 0 then (0, Some errPortEmpty)
      else (int32 port, None)
  end.

(** ** Decoded configuration values *)

(** Keys of a decoded configuration map: the comparable scalars a YAML
    document produces. *)
Inductive Key : Type :=
| KString (s : string)
| KInt (z : Z)
| KBool (b : bool).

(** A value of type [interface{}] in a decoded configuration tree.  [VNil]
    is the [nil] interface value; a [float64] is carried as its bits. *)
Inductive Value : Type :=
| VNil
| VString (s : string)
| VInt (z : Z)
| VBool (b : bool)
| VFloat64 (bits : Z)
| VSlice (l : list Value)
| VMap (m : list (Key * Value)).

#[global] Instance Key_eq_dec : EqDecision Key.
Proof. solve_decision. Defined.

Definition Key_to_sum (k : Key) : string + (Z + bool) :=
  match k with
  | KString s => inl s
  | KInt z => inr (inl z)
  | KBool b => inr (inr b)
  end.

Definition Key_of_sum (x : string + (Z + bool)) : Key :=
  match x with
  | inl s => KString s
  | inr (inl z) => KInt z
  | inr (inr b) => KBool b
  end.

#[global] Instance Key_countable : Countable Key.
Proof. apply (inj_countable' Key_to_sum Key_of_sum). by intros []. Defined.

(** [map[interface{}]interface{}]. *)
Abbreviation Config := (gmap Key Value).

(** What [%T] prints for a value. *)
Definition type_name (v : Value) : string :=
  match v with
  | VNil => "<nil>"
  | VString _ => "string"
  | VInt _ => "int"
  | VBool _ => "bool"
  | VFloat64 _ => "float64"
  | VSlice _ => "[]interface {}"
  | VMap _ => "map[interface {}]interface {}"
  end.

(** ** The logger *)

Inductive Level : Type :=
| LInfo (v : Z)
| LError.

(** One call that reached the log sink. *)
Record LogEntry : Type := mkLogEntry {
  entry_level : Level;
  entry_msg : string;
  entry_err : option GoError;
  entry_kvs : list Value
}.

(** A [logr.Logger] handle: the key/value pairs attached with [WithValues]
    and the verbosity selected with [V]. *)
Record Logger : Type := mkLogger {
  logger_values : list Value;
  logger_v : Z
}.

Definition WithValues (l : Logger) (kvs : list Value) : Logger :=
  {| logger_values := logger_values l ++ kvs; logger_v := logger_v l |}.

Definition V (l : Logger) (level : Z) : Logger :=
  {| logger_values := logger_values l; logger_v := logger_v l + level |}.

(** The log sink is threaded through the functions that log: each takes the
    entries written so far and returns them extended. *)
Definition Sink : Type := list LogEntry.

Definition Log_Error (l : Logger) (err : GoError) (msg : string) (sink : Sink) : Sink :=
  sink ++ [ {| entry_level := LError; entry_msg := msg;
               entry_err := Some err; entry_kvs := logger_values l |} ].

Definition Log_Info (l : Logger) (msg : string) (kvs : list Value) (sink : Sink) : Sink :=
  sink ++ [ {| entry_level := LInfo (logger_v l); entry_msg := msg;
               entry_err := None; entry_kvs := logger_values l ++ kvs |} ].

(** ** Component type names *)

(** Modelled from the spec: [parser.ComponentType] belongs to the [parser]
    package, whose source is not at hand.  The spec describes it as the
    normalization that "strips any "/"-qualifier suffix" of a component
    name: the model keeps the text before the first ['/']. *)
Fixpoint ComponentType (name : string) : string :=
  match name with
  | EmptyString => EmptyString
  | String c s =>
      if Ascii.eqb c "/"%char then EmptyString else String c (ComponentType s)
  end.

(** [corev1.ServicePort], with the two fields this package sets; the others
    keep their zero values. *)
Record ServicePort : Type := mkServicePort {
  Name : string;
  Port : Z
}.

Definition endpointKey : string := "endpoint".

(** ** Colon-digit runs, stated on the text *)

(** [s] contains a colon immediately followed by a digit. *)
Definition ColonDigitRun (s : string) : Prop :=
  exists pre d rest, s = pre +:+ String colon (String d rest) /\ is_digit d = true.

(** [e] splits as [pre ++ ":" ++ ds ++ rest] where [":" ++ ds] is the
    first colon-digit run met from the left: nothing before it is one, [ds]
    is a non-empty run of digits, and the run stops where [ds] does. *)
Definition FirstMatch (e pre ds rest : string) : Prop :=
  e = pre +:+ String colon (ds +:+ rest)
  /\ ~ ColonDigitRun pre
  /\ ds <> EmptyString
  /\ all_digits ds = true
  /\ starts_with_digit rest = false.

Section Exporter.

(** The implementations of [parser.ComponentPortParser], the rule record
    [authz.DynamicRolePolicy] and the function [naming.PortName] come from
    other packages; the development is parametric in them. *)
Context {ComponentPortParser DynamicRolePolicy : Type}.
Variable PortName : string -> Z -> string.

(** An implementation of the [AuthzParser] interface. *)
Record AuthzParser : Type := mkAuthzParser {
  ParserName : string;
  GetRBACRules : list DynamicRolePolicy
}.

(** Function values and interface values may be [nil]: both are options,
    with [None] for [nil]. *)
Definition BuilderFn : Type := Logger -> string -> Config -> option ComponentPortParser.
Definition Builder : Type := option BuilderFn.

Definition AuthzBuilderFn : Type := Logger -> string -> Config -> option AuthzParser.
Definition AuthzBuilder : Type := option AuthzBuilderFn.

(** The package-level variables [registry] and [authzRegistry]. *)
Record Registries : Type := mkRegistries {
  registry : gmap string Builder;
  authzRegistry : gmap string AuthzBuilder
}.

(** Both tables start out as [make(map[string]...)]. *)
Definition init : Registries :=
  {| registry := ∅; authzRegistry := ∅ |}.

(** Reading a Go map at a missing key gives the zero value, here [nil]. *)
Definition BuilderFor (st : Registries) (name : string) : Builder :=
  default None (registry st !! ComponentType name).

Definition no_builders (name : string) : GoError :=
  errorString ("no builders for " +:+ name).

Definition For (st : Registries) (logger : Logger) (name : string) (config : Config)
  : option ComponentPortParser * option GoError :=
  match BuilderFor st name with
  | None => (None, Some (no_builders name))
  | Some builder => (builder logger name config, None)
  end.

Definition Register (st : Registries) (name : string) (builder : Builder) : Registries :=
  {| registry := <[name := builder]> (registry st);
     authzRegistry := authzRegistry st |}.

Definition IsRegistered (st : Registries) (name : string) : bool :=
  match registry st !! name with
  | Some _ => true
  | None => false
  end.

Definition AuthzBuilderFor (st : Registries) (name : string) : AuthzBuilder :=
  default None (authzRegistry st !! ComponentType name).

Definition AuthzFor (st : Registries) (logger : Logger) (name : string) (config : Config)
  : option AuthzParser * option GoError :=
  match AuthzBuilderFor st name with
  | None => (None, Some (no_builders name))
  | Some builder => (builder logger name config, None)
  end.

Definition AuthzRegister (st : Registries) (name : string) (builder : AuthzBuilder)
  : Registries :=
  {| registry := registry st;
     authzRegistry := <[name := builder]> (authzRegistry st) |}.

(** A startup sequence of registrations. *)
Definition RegisterAll (st : Registries) (rs : list (string * Builder)) : Registries :=
  fold_left (fun st r => Register st r.1 r.2) rs st.

(** ** Reading the endpoint *)

Definition getAddressFromConfig (logger : Logger) (name key : string) (config : Config)
    (sink : Sink) : Value * Sink :=
  match config !! KString key with
  | None =>
      (VNil,
       Log_Info (V logger 2) "%s exporter doesn't have an %s"
         [VString name; VString key] sink)
  | Some endpoint => (endpoint, sink)
  end.

(** The result is the [*corev1.ServicePort] ([None] for [nil]) together
    with the log sink after the call. *)
Definition singlePortFromConfigEndpoint (logger : Logger) (name : string)
    (config : Config) (sink : Sink) : option ServicePort * Sink :=
  let '(endpoint, sink) := getAddressFromConfig logger name endpointKey config sink in
  match endpoint with
  | VNil => (None, sink)
  | VString e =>
      match portFromEndpoint e with
      | (_, Some err) =>
          (None,
           Log_Error (WithValues logger [VString endpointKey; VString e]) err
             "couldn't parse the endpoint's port" sink)
      | (port, None) =>
          (Some {| Name := PortName name port; Port := port |}, sink)
      end
  | _ =>
      (None,
       Log_Error (WithValues logger [VString endpointKey; endpoint])
         (errorString ("unrecognized type " +:+ type_name endpoint))
         "exporter's endpoint isn't a string" sink)
  end.

End Exporter.

(** ** Digits and [strconv] *)

Lemma is_digit_val c : is_digit c = true -> 0 <= digit_val c <= 9.
Proof.
  unfold is_digit, digit_val. rewrite andb_true_iff, !N.leb_le. lia.
Qed.

Lemma is_digit_not_colon c : is_digit c = true -> Ascii.eqb c colon = false.
Proof.
  intros Hd. apply Ascii.eqb_neq. intros ->. discriminate Hd.
Qed.

Lemma decimal_value_nonneg s : all_digits s = true -> 0 <= decimal_value s.
Proof.
  induction s as [|c s IH]; simpl; [lia|].
  rewrite andb_true_iff. intros [Hc Hs].
  pose proof (is_digit_val c Hc). specialize (IH Hs).
  assert (0 < 10 ^ Z.of_nat (String.length s)) by (apply Z.pow_pos_nonneg; lia).
  nia.
Qed.

Lemma ParseUint_loop_digits maxVal s : forall n,
  0 <= n <= maxVal -> maxVal < 2 ^ 32 -> all_digits s = true ->
  strconv.ParseUint_loop maxVal s n =
    let v := n * 10 ^ Z.of_nat (String.length s) + decimal_value s in
    if v <=? maxVal then (v, None) else (maxVal, Some ErrRange).
Proof.
  induction s as [|c s IH]; intros n Hn Hmax Hds; simpl in *.
  - rewrite Z.mul_1_r, Z.add_0_r.
    destruct (Z.leb_spec n maxVal); [done | lia].
  - apply andb_true_iff in Hds as [Hc Hs]. rewrite Hc.
    pose proof (is_digit_val c Hc) as Hd.
    pose proof (decimal_value_nonneg s Hs) as Hv.
    assert (Hp : 0 < 10 ^ Z.of_nat (String.length s)) by (apply Z.pow_pos_nonneg; lia).
    assert (Hcut : (strconv.maxUint64 / 10 + 1 <=? n) = false).
    { apply Z.leb_gt. unfold strconv.maxUint64.
      change (2 ^ 32) with 4294967296 in Hmax.
      change ((2 ^ 64 - 1) / 10 + 1) with 1844674407370955162. lia. }
    rewrite Hcut.
    change (2 ^ 32) with 4294967296 in Hmax.
    assert (H10 : strconv.u64 (n * 10) = n * 10).
    { unfold strconv.u64. apply Z.mod_small.
      change (2 ^ 64) with 18446744073709551616. lia. }
    rewrite H10.
    assert (H11 : strconv.u64 (n * 10 + digit_val c) = n * 10 + digit_val c).
    { unfold strconv.u64. apply Z.mod_small.
      change (2 ^ 64) with 18446744073709551616. lia. }
    rewrite H11.
    assert (Hlt : (n * 10 + digit_val c <? n * 10) = false) by (apply Z.ltb_ge; lia).
    rewrite Hlt. simpl orb.
    rewrite Nat2Z.inj_succ, Z.pow_succ_r by lia.
    set (k := 10 ^ Z.of_nat (String.length s)) in *.
    destruct (Z.ltb_spec maxVal (n * 10 + digit_val c)) as [Hover|Hfit].
    + destruct (Z.leb_spec (n * (10 * k) + (digit_val c * k + decimal_value s)) maxVal);
        [nia | done].
    + rewrite IH by (lia || done). cbv zeta. fold k.
      replace (n * (10 * k) + (digit_val c * k + decimal_value s))
        with ((n * 10 + digit_val c) * k + decimal_value s) by ring.
      done.
Qed.

Lemma ParseInt10_digits ds :
  ds <> EmptyString -> all_digits ds = true ->
  strconv.ParseInt10 ds 32 =
    if decimal_value ds <=? maxInt32 then (decimal_value ds, None)
    else (maxInt32, Some (NumError "ParseInt" ds ErrRange)).
Proof.
  intros Hne Hds. destruct ds as [|c tl]; [done|].
  pose proof Hds as Hds'. simpl in Hds'. apply andb_true_iff in Hds' as [Hc _].
  assert (Hplus : Ascii.eqb c "+"%char = false).
  { apply Ascii.eqb_neq. intros ->. discriminate Hc. }
  assert (Hminus : Ascii.eqb c "-"%char = false).
  { apply Ascii.eqb_neq. intros ->. discriminate Hc. }
  pose proof (decimal_value_nonneg _ Hds) as Hv.
  unfold strconv.ParseInt10. rewrite Hplus, Hminus.
  unfold strconv.ParseUint10.
  change (2 ^ 32 - 1) with 4294967295. change (2 ^ (32 - 1)) with 2147483648.
  rewrite ParseUint_loop_digits by (done || lia).
  cbv zeta. rewrite Z.mul_0_l, Z.add_0_l.
  set (v := decimal_value (String c tl)) in *.
  unfold maxInt32. cbn [negb andb].
  destruct (Z.leb_spec v 4294967295) as [Hfit|Hover].
  - destruct (Z.leb_spec 2147483648 v), (Z.leb_spec v 2147483647); (done || lia).
  - destruct (Z.leb_spec v 2147483647); [lia|].
    destruct (Z.leb_spec 2147483648 4294967295); [done | lia].
Qed.

(** ** The scan for [":[0-9]+"] *)

Lemma span_digits_app ds rest :
  all_digits ds = true -> starts_with_digit rest = false ->
  regexp.span_digits (ds +:+ rest) = (ds, rest).
Proof.
  intros Hds Hrest. induction ds as [|c ds IH]; simpl in *.
  - destruct rest as [|r rest]; [done|]. simpl in *. by rewrite Hrest.
  - apply andb_true_iff in Hds as [Hc Hds]. by rewrite Hc, IH.
Qed.

Lemma span_digits_nonempty c s :
  is_digit c = true -> (regexp.span_digits (String c s)).1 <> EmptyString.
Proof.
  intros Hc. simpl. rewrite Hc. by destruct (regexp.span_digits s).
Qed.

(** An anchored match exists exactly when the text starts with a colon
    and a digit. *)
Lemma match_here_Some s :
  is_Some (regexp.match_here s) <->
  exists d rest, s = String colon (String d rest) /\ is_digit d = true.
Proof.
  split.
  - intros [m Hm]. destruct s as [|c s]; [done|]. simpl in Hm.
    destruct (Ascii.eqb_spec c colon) as [->|]; [|done].
    destruct s as [|d rest]; [done|]. simpl in Hm.
    destruct (is_digit d) eqn:Hd; [eauto | done].
  - intros (d & rest & -> & Hd). simpl.
    change (Ascii.eqb colon colon) with true. cbv iota. rewrite Hd.
    destruct (regexp.span_digits rest). eauto.
Qed.

Lemma match_here_None s :
  (forall d rest, s = String colon (String d rest) -> is_digit d = false) ->
  regexp.match_here s = None.
Proof.
  intros H. destruct (regexp.match_here s) eqn:Hm; [|done].
  assert (Hs : is_Some (regexp.match_here s)) by eauto.
  apply match_here_Some in Hs as (d & rest & -> & Hd).
  rewrite (H d rest) in Hd; done.
Qed.

Lemma ColonDigitRun_cons c s :
  ColonDigitRun (String c s) <->
  (c = colon /\ starts_with_digit s = true) \/ ColonDigitRun s.
Proof.
  split.
  - intros (pre & d & rest & Heq & Hd). destruct pre as [|p pre]; simpl in Heq.
    + injection Heq as -> ->. by left.
    + injection Heq as -> ->. right. by exists pre, d, rest.
  - intros [[-> Hs] | (pre & d & rest & -> & Hd)].
    + destruct s as [|d rest]; [done|]. by exists EmptyString, d, rest.
    + by exists (String c pre), d, rest.
Qed.

Lemma ColonDigitRun_empty : ~ ColonDigitRun EmptyString.
Proof. intros (pre & d & rest & Heq & _). by destruct pre. Qed.

(** [MatchString] decides the presence of a colon-digit run. *)
Lemma MatchString_spec s : regexp.MatchString s = true <-> ColonDigitRun s.
Proof.
  induction s as [|c s IH].
  - simpl. split; [done|]. intros H. by apply ColonDigitRun_empty in H.
  - rewrite ColonDigitRun_cons, <- IH.
    cbn [regexp.MatchString].
    destruct (regexp.match_here (String c s)) eqn:Hm.
    + split; [|done]. intros _. left.
      assert (Hs : is_Some (regexp.match_here (String c s))) by eauto.
      apply match_here_Some in Hs as (d & rest & Heq & Hd).
      injection Heq as -> ->. done.
    + split; [by right|]. intros [[-> Hs] | H]; [|done].
      destruct s as [|d rest]; [done|]. simpl in Hs.
      assert (Hsome : is_Some (regexp.match_here (String colon (String d rest)))).
      { apply match_here_Some. eauto. }
      rewrite Hm in Hsome. by destruct Hsome.
Qed.

Lemma span_digits_spec s :
  s = (regexp.span_digits s).1 +:+ (regexp.span_digits s).2
  /\ all_digits (regexp.span_digits s).1 = true
  /\ starts_with_digit (regexp.span_digits s).2 = false.
Proof.
  induction s as [|c s (IH1 & IH2 & IH3)]; simpl; [done|].
  destruct (is_digit c) eqn:Hc; simpl.
  - destruct (regexp.span_digits s) as [ds rest]. simpl in *.
    rewrite Hc, IH2, IH3. by rewrite IH1 at 1.
  - by rewrite Hc.
Qed.

Lemma FindString_unfold s :
  regexp.FindString s =
    match regexp.match_here s with
    | Some m => m
    | None => match s with
              | EmptyString => EmptyString
              | String _ s' => regexp.FindString s'
              end
    end.
Proof. by destruct s. Qed.

Lemma match_here_first ds rest :
  ds <> EmptyString -> all_digits ds = true -> starts_with_digit rest = false ->
  regexp.match_here (String colon (ds +:+ rest)) = Some (String colon ds).
Proof.
  intros Hne Hds Hrest. unfold regexp.match_here.
  change (Ascii.eqb colon colon) with true. cbv iota.
  rewrite span_digits_app by done. by destruct ds.
Qed.

(** The scan returns the first colon-digit run, with all of its digits. *)
Lemma FirstMatch_find e pre ds rest :
  FirstMatch e pre ds rest ->
  regexp.FindString e = String colon ds /\ regexp.MatchString e = true.
Proof.
  intros (-> & Hpre & Hne & Hds & Hrest). split.
  - induction pre as [|c pre IH].
    + change (regexp.FindString (String colon (ds +:+ rest)) = String colon ds).
      by rewrite FindString_unfold, match_here_first.
    + rewrite ColonDigitRun_cons in Hpre.
      change (regexp.FindString
                (String c (pre +:+ String colon (ds +:+ rest))) = String colon ds).
      rewrite FindString_unfold, match_here_None; [apply IH; tauto|].
      intros d r Heq. injection Heq as -> Heq.
      destruct pre as [|p pre]; simpl in Heq.
      * injection Heq as <- _. done.
      * injection Heq as -> _. simpl in Hpre.
        destruct (is_digit d); [exfalso; apply Hpre; by left | done].
  - apply MatchString_spec. destruct ds as [|d ds]; [done|].
    simpl in Hds. apply andb_true_iff in Hds as [Hd _].
    by exists pre, d, (ds +:+ rest).
Qed.

(** Every text with a colon-digit run has a first one. *)
Lemma FirstMatch_exists e :
  ColonDigitRun e -> exists pre ds rest, FirstMatch e pre ds rest.
Proof.
  induction e as [|c s IH]; intros Hrun.
  - by apply ColonDigitRun_empty in Hrun.
  - destruct (Ascii.eqb_spec c colon) as [->|Hc];
      [destruct (starts_with_digit s) eqn:Hs|].
    + exists EmptyString, (regexp.span_digits s).1, (regexp.span_digits s).2.
      destruct (span_digits_spec s) as (H1 & H2 & H3).
      repeat split; [by rewrite <- H1 | apply ColonDigitRun_empty | | done | done].
      destruct s as [|d s]; [done|]. by apply span_digits_nonempty.
    + apply ColonDigitRun_cons in Hrun as [[_ Hrun] | Hrun]; [congruence|].
      destruct (IH Hrun) as (pre & ds & rest & -> & Hpre & Hne & Hds & Hrest).
      exists (String colon pre), ds, rest. repeat split; try done.
      rewrite ColonDigitRun_cons. intros [[_ Hp] | Hp]; [|done].
      destruct pre as [|p pre]; [done|]. simpl in Hs, Hp. congruence.
    + apply ColonDigitRun_cons in Hrun as [[Hrun _] | Hrun]; [done|].
      destruct (IH Hrun) as (pre & ds & rest & -> & Hpre & Hne & Hds & Hrest).
      exists (String c pre), ds, rest. repeat split; try done.
      rewrite ColonDigitRun_cons. intros [[Hp _] | Hp]; done.
Qed.

Lemma strings_Replace_drop_digits ds :
  all_digits ds = true -> strings_Replace_drop ds colon = ds.
Proof.
  induction ds as [|c ds IH]; simpl; [done|].
  rewrite andb_true_iff. intros [Hc Hds].
  by rewrite (is_digit_not_colon c Hc), IH.
Qed.

Lemma int32_small z : 0 <= z <= maxInt32 -> int32 z = z.
Proof.
  unfold int32, maxInt32. intros Hz.
  change (2 ^ 31) with 2147483648. change (2 ^ 32) with 4294967296.
  rewrite Z.mod_small; lia.
Qed.

(** What [portFromEndpoint] returns, in terms of the first colon-digit
    run of the endpoint. *)
Lemma portFromEndpoint_first e pre ds rest :
  FirstMatch e pre ds rest ->
  portFromEndpoint e =
    if decimal_value ds =? 0 then (0, Some errPortEmpty)
    else if decimal_value ds <=? maxInt32 then (decimal_value ds, None)
    else (0, Some (NumError "ParseInt" ds ErrRange)).
Proof.
  intros Hfm. destruct (FirstMatch_find _ _ _ _ Hfm) as [Hfind Hmatch].
  destruct Hfm as (_ & _ & Hne & Hds & _).
  pose proof (decimal_value_nonneg _ Hds) as Hv.
  unfold portFromEndpoint. rewrite Hmatch, Hfind.
  cbn [strings_Replace_drop]. change (Ascii.eqb colon colon) with true. cbv iota.
  rewrite strings_Replace_drop_digits, ParseInt10_digits by done.
  destruct (Z.leb_spec (decimal_value ds) maxInt32) as [Hfit|Hover].
  - destruct (Z.eqb_spec (decimal_value ds) 0) as [Hz|Hnz]; [done|].
    by rewrite int32_small by lia.
  - destruct (Z.eqb_spec (decimal_value ds) 0) as [Hz|_]; [|done].
    unfold maxInt32 in Hover. lia.
Qed.

Lemma portFromEndpoint_no_run e :
  ~ ColonDigitRun e -> portFromEndpoint e = (0, Some errPortEmpty).
Proof.
  intros Hno. unfold portFromEndpoint.
  destruct (regexp.MatchString e) eqn:Hm; [|done].
  apply MatchString_spec in Hm. done.
Qed.

#[global] Instance ColonDigitRun_dec s : Decision (ColonDigitRun s).
Proof.
  destruct (regexp.MatchString s) eqn:Hm.
  - left. by apply MatchString_spec.
  - right. intros H. apply MatchString_spec in H. congruence.
Defined.

#[global] Instance FirstMatch_dec e pre ds rest : Decision (FirstMatch e pre ds rest).
Proof. unfold FirstMatch. apply _. Defined.

(** A successful parse yields a positive 32-bit value. *)
Lemma portFromEndpoint_ok_range e p :
  portFromEndpoint e = (p, None) -> 1 <= p <= maxInt32.
Proof.
  intros Hp. destruct (decide (ColonDigitRun e)) as [Hrun|Hno].
  - destruct (FirstMatch_exists e Hrun) as (pre & ds & rest & Hfm).
    rewrite (portFromEndpoint_first _ _ _ _ Hfm) in Hp.
    pose proof Hfm as (_ & _ & _ & Hds & _).
    pose proof (decimal_value_nonneg _ Hds).
    destruct (Z.eqb_spec (decimal_value ds) 0); [done|].
    destruct (Z.leb_spec (decimal_value ds) maxInt32); [|done].
    injection Hp as <-. lia.
  - by rewrite portFromEndpoint_no_run in Hp.
Qed.

(** ** Component type names *)

Lemma ComponentType_qualified t q :
  ComponentType t = t -> ComponentType (t +:+ String "/" q) = t.
Proof.
  induction t as [|c t IH]; simpl; [done|].
  destruct (Ascii.eqb c "/"); [done|].
  intros [= Ht]. by rewrite IH.
Qed.

(** ** The port of an endpoint *)

(** C3. An endpoint with a colon-digit run has a first such run
    [":" ++ ds]; it is the one text the scan extracts, a successful
    [portFromEndpoint] returns the base-10 value of [ds], and it succeeds
    whenever that value is positive and fits 32 bits. *)
Theorem portFromEndpoint_first_run e :
  ColonDigitRun e ->
  exists pre ds rest,
    FirstMatch e pre ds rest
    /\ regexp.FindString e = String colon ds
    /\ (forall p, portFromEndpoint e = (p, None) -> p = decimal_value ds)
    /\ (0 < decimal_value ds <= maxInt32 ->
        portFromEndpoint e = (decimal_value ds, None)).
Proof.
  intros Hrun. destruct (FirstMatch_exists e Hrun) as (pre & ds & rest & Hfm).
  exists pre, ds, rest. split; [done|].
  split; [by apply (FirstMatch_find e pre ds rest)|].
  rewrite (portFromEndpoint_first _ _ _ _ Hfm). split.
  - intros p. destruct (decimal_value ds =? 0); [done|].
    destruct (decimal_value ds <=? maxInt32); [|done]. by intros [= ->].
  - intros [Hpos Hfit].
    destruct (Z.eqb_spec (decimal_value ds) 0); [lia|].
    destruct (Z.leb_spec (decimal_value ds) maxInt32); [done | lia].
Qed.

(** With several colon-digit runs the leftmost one is taken, also when it
    sits inside an IPv6 literal. *)
Example portFromEndpoint_two_runs :
  portFromEndpoint "host:80:9090" = (80, None)
  /\ portFromEndpoint "[::1]:4317" = (1, None)
  /\ portFromEndpoint "http://collector:04317/v1:9" = (4317, None).
Proof. repeat split. Qed.

(** C6. Without a colon-digit run, or when the digits of the first run
    have value zero, [portFromEndpoint] returns no port and the error
    "port should not be empty". *)
Theorem portFromEndpoint_empty e :
  (~ ColonDigitRun e
   \/ exists pre ds rest, FirstMatch e pre ds rest /\ decimal_value ds = 0) ->
  portFromEndpoint e = (0, Some (errorString "port should not be empty")).
Proof.
  intros [Hno | (pre & ds & rest & Hfm & Hz)].
  - by apply portFromEndpoint_no_run.
  - by rewrite (portFromEndpoint_first _ _ _ _ Hfm), Hz.
Qed.

Section ExporterFacts.

Context {ComponentPortParser DynamicRolePolicy : Type}.

Implicit Types st : @Registries ComponentPortParser DynamicRolePolicy.

#[local] Abbreviation init := (@init ComponentPortParser DynamicRolePolicy).

(** ** The two registries *)

Lemma BuilderFor_Register st t b n :
  BuilderFor (Register st t b) n =
    if decide (t = ComponentType n) then b else BuilderFor st n.
Proof.
  unfold BuilderFor, Register. simpl. rewrite lookup_insert.
  by destruct (decide (t = ComponentType n)).
Qed.

Lemma IsRegistered_Register st t b n :
  IsRegistered (Register st t b) n =
    if decide (t = n) then true else IsRegistered st n.
Proof.
  unfold IsRegistered, Register. simpl. rewrite lookup_insert.
  by destruct (decide (t = n)).
Qed.

Lemma IsRegistered_dom st n :
  IsRegistered st n = true <-> n ∈ dom (registry st).
Proof.
  unfold IsRegistered. rewrite elem_of_dom.
  destruct (registry st !! n); split; (done || eauto || by intros []).
Qed.

Lemma RegisterAll_snoc st rs r :
  RegisterAll st (rs ++ [r]) = Register (RegisterAll st rs) r.1 r.2.
Proof. unfold RegisterAll. by rewrite fold_left_app. Qed.

(** C1 (as amended). A builder registered under a name [t] without a
    "/"-qualifier is what [BuilderFor] returns afterwards, both for [t]
    itself and for every qualified form [t/q] of it. *)
Theorem Register_BuilderFor_roundtrip st t b :
  ComponentType t = t ->
  BuilderFor (Register st t b) t = b
  /\ forall q, BuilderFor (Register st t b) (t +:+ String "/" q) = b.
Proof.
  intros Ht. split; [|intros q]; rewrite BuilderFor_Register.
  - rewrite Ht. by destruct (decide (t = t)).
  - rewrite ComponentType_qualified by done. by destruct (decide (t = t)).
Qed.

(** C8. When nothing is stored under the normalized form of [name],
    [BuilderFor] returns [nil] and [For] returns no parser together with the
    error "no builders for <name>"; [AuthzBuilderFor] and [AuthzFor] do the
    same over [authzRegistry]. *)
Theorem unregistered_no_builder st name logger config :
  (registry st !! ComponentType name = None ->
     BuilderFor st name = None
     /\ For st logger name config
        = (None, Some (errorString ("no builders for " +:+ name))))
  /\ (authzRegistry st !! ComponentType name = None ->
       AuthzBuilderFor st name = None
       /\ AuthzFor st logger name config
          = (None, Some (errorString ("no builders for " +:+ name)))).
Proof.
  split; intros Hnone.
  - unfold For, BuilderFor, Builder in *. by rewrite Hnone.
  - unfold AuthzFor, AuthzBuilderFor, AuthzBuilder in *. by rewrite Hnone.
Qed.

(** C9. [Register] leaves [authzRegistry] alone, hence the results of
    [AuthzBuilderFor] and [AuthzFor]; [AuthzRegister] leaves [registry]
    alone, hence the results of [BuilderFor], [For] and [IsRegistered]. *)
Theorem registries_independent st n m logger config :
  (forall b,
      authzRegistry (Register st n b) = authzRegistry st
      /\ AuthzBuilderFor (Register st n b) m = AuthzBuilderFor st m
      /\ AuthzFor (Register st n b) logger m config = AuthzFor st logger m config)
  /\ (forall ab,
        registry (AuthzRegister st n ab) = registry st
        /\ BuilderFor (AuthzRegister st n ab) m = BuilderFor st m
        /\ For (AuthzRegister st n ab) logger m config = For st logger m config
        /\ IsRegistered (AuthzRegister st n ab) m = IsRegistered st m).
Proof.
  split; [intros b | intros ab]; repeat (split; [reflexivity|]); reflexivity.
Qed.

(** C10. [IsRegistered] consults the table at the raw name: it holds
    exactly for the keys of [registry], which after a sequence of
    registrations on the initial table are the names registered.
    Registering "otlp" does not make "otlp/2" registered (on the initial
    table [IsRegistered "otlp/2"] is false afterwards), although
    [BuilderFor "otlp/2"] then returns the builder of "otlp". *)
Theorem IsRegistered_raw_name st :
  (forall n, IsRegistered st n = true <-> n ∈ dom (registry st))
  /\ (forall rs n, IsRegistered (RegisterAll init rs) n = true <-> n ∈ rs.*1)
  /\ (forall b,
        IsRegistered (Register init "otlp" b) "otlp/2" = false
        /\ IsRegistered (Register st "otlp" b) "otlp/2" = IsRegistered st "otlp/2"
        /\ BuilderFor (Register st "otlp" b) "otlp/2" = b).
Proof.
  split; [apply IsRegistered_dom|]. split.
  - intros rs n. induction rs as [|r rs IH] using rev_ind.
    + simpl. rewrite elem_of_nil. done.
    + rewrite RegisterAll_snoc, IsRegistered_Register, fmap_app, elem_of_app.
      simpl. rewrite list_elem_of_singleton.
      destruct (decide (r.1 = n)) as [->|Hne]; [tauto|].
      rewrite IH. split; [tauto|]. intros [|]; [done | congruence].
  - intros b. split; [|split].
    + rewrite IsRegistered_Register.
      destruct (decide ("otlp" = "otlp/2")) as [Heq|_]; [discriminate Heq|].
      unfold IsRegistered, init. simpl. by rewrite lookup_empty.
    + rewrite IsRegistered_Register.
      by destruct (decide ("otlp" = "otlp/2")) as [Heq|_]; [discriminate Heq|].
    + rewrite BuilderFor_Register.
      change (ComponentType "otlp/2") with "otlp".
      by destruct (decide ("otlp" = "otlp")).
Qed.

(** ** Descriptors from the configuration *)

Variable PortName : string -> Z -> string.

(** C7. The digits of the first run are parsed in base 10; a value
    beyond the signed 32-bit range makes [portFromEndpoint] return the
    range error of [strconv.ParseInt] and no port, and
    [singlePortFromConfigEndpoint] then logs that error and returns [nil]. *)
Theorem portFromEndpoint_overflow e pre ds rest :
  FirstMatch e pre ds rest ->
  (decimal_value ds <= maxInt32 -> decimal_value ds <> 0 ->
     portFromEndpoint e = (decimal_value ds, None))
  /\ (maxInt32 < decimal_value ds ->
       portFromEndpoint e = (0, Some (NumError "ParseInt" ds ErrRange))
       /\ forall logger name (config : Config) sink,
           config !! KString endpointKey = Some (VString e) ->
           singlePortFromConfigEndpoint PortName logger name config sink =
             (None,
              sink ++ [ {| entry_level := LError;
                           entry_msg := "couldn't parse the endpoint's port";
                           entry_err := Some (NumError "ParseInt" ds ErrRange);
                           entry_kvs := logger_values logger
                                          ++ [VString endpointKey; VString e] |} ])).
Proof.
  intros Hfm. pose proof (portFromEndpoint_first _ _ _ _ Hfm) as Hp. split.
  - intros Hfit Hnz. rewrite Hp.
    destruct (Z.eqb_spec (decimal_value ds) 0); [done|].
    destruct (Z.leb_spec (decimal_value ds) maxInt32); [done | lia].
  - intros Hover.
    assert (Hp' : portFromEndpoint e = (0, Some (NumError "ParseInt" ds ErrRange))).
    { rewrite Hp. unfold maxInt32 in *.
      destruct (Z.eqb_spec (decimal_value ds) 0); [lia|].
      destruct (Z.leb_spec (decimal_value ds) 2147483647); [lia | done]. }
    split; [done|]. intros logger name config sink Hcfg.
    unfold singlePortFromConfigEndpoint, getAddressFromConfig.
    by rewrite Hcfg, Hp'.
Qed.

(** C2. [singlePortFromConfigEndpoint] returns a descriptor or [nil] and
    has no error result; it returns [nil] when the "endpoint" key is absent,
    when its value is not a string, and when the string's port does not
    parse. *)
Theorem singlePort_graceful logger name (config : Config) sink :
  (config !! KString endpointKey = None
   \/ (exists v, config !! KString endpointKey = Some v /\ forall s, v <> VString s)
   \/ (exists e err, config !! KString endpointKey = Some (VString e)
                     /\ (portFromEndpoint e).2 = Some err)) ->
  (singlePortFromConfigEndpoint PortName logger name config sink).1 = None.
Proof.
  unfold singlePortFromConfigEndpoint, getAddressFromConfig.
  intros [Habs | [(v & Hv & Hns) | (e & err & He & Herr)]].
  - by rewrite Habs.
  - rewrite Hv. destruct v; try done. by destruct (Hns s).
  - rewrite He. destruct (portFromEndpoint e) as [p [err'|]]; done.
Qed.

(** C5. When "endpoint" holds a string from which [portFromEndpoint]
    extracts the port [p], the descriptor returned has [Port = p] and
    [Name = PortName name p], and nothing is logged. *)
Theorem singlePort_success logger name (config : Config) sink e p :
  config !! KString endpointKey = Some (VString e) ->
  portFromEndpoint e = (p, None) ->
  singlePortFromConfigEndpoint PortName logger name config sink =
    (Some {| Name := PortName name p; Port := p |}, sink).
Proof.
  intros Hcfg Hp. unfold singlePortFromConfigEndpoint, getAddressFromConfig.
  by rewrite Hcfg, Hp.
Qed.

(** C4 (as amended). The port of a returned descriptor lies between 1
    and 2147483647, the largest signed 32-bit value. *)
Theorem singlePort_port_range logger name (config : Config) sink sp sink' :
  singlePortFromConfigEndpoint PortName logger name config sink = (Some sp, sink') ->
  1 <= Port sp <= 2147483647.
Proof.
  unfold singlePortFromConfigEndpoint, getAddressFromConfig.
  destruct (config !! KString endpointKey) as [v|]; [|done].
  destruct v; try done.
  destruct (portFromEndpoint s) as [p [err|]] eqn:Hp; [done|].
  intros [= <- _]. simpl. by apply (portFromEndpoint_ok_range s).
Qed.

End ExporterFacts.

(** * Concrete runs

    The statements above, applied to concrete tables, configurations and
    endpoints.  Parser implementations and policies are instantiated with
    [unit], and [naming.PortName] with a function that returns the exporter
    name. *)

(** C1, as stated, fails: a builder registered under "otlp/2" is stored
    under that raw name, while [BuilderFor "otlp/2"] reads the table at
    "otlp" and finds nothing. *)
Lemma Register_BuilderFor_qualified_unreachable :
  let b : @Builder unit := Some (fun _ _ _ => Some tt) in
  let st := Register (@init unit unit) "otlp/2" b in
  BuilderFor st "otlp/2" = None /\ BuilderFor st "otlp/2" <> b.
Proof.
  cbv zeta. rewrite BuilderFor_Register.
  destruct (decide ("otlp/2" = ComponentType "otlp/2")) as [Heq|_];
    [discriminate Heq|].
  unfold BuilderFor. simpl. rewrite lookup_empty. by split.
Qed.

Lemma Register_BuilderFor_roundtrip_otlp :
  let b : @Builder unit := Some (fun _ _ _ => Some tt) in
  ComponentType "otlp" = "otlp"
  /\ (BuilderFor (Register (@init unit unit) "otlp" b) "otlp" = b
      /\ forall q, BuilderFor (Register (@init unit unit) "otlp" b)
                     ("otlp" +:+ String "/" q) = b).
Proof.
  cbv zeta. split; [reflexivity|].
  apply Register_BuilderFor_roundtrip. reflexivity.
Defined.

Lemma unregistered_no_builder_otlp :
  let st := @init unit unit in
  let logger := {| logger_values := []; logger_v := 0 |} in
  (registry st !! ComponentType "otlp/2" = None
   /\ authzRegistry st !! ComponentType "otlp/2" = None)
  /\ (BuilderFor st "otlp/2" = None
      /\ For st logger "otlp/2" ∅ = (None, Some (errorString "no builders for otlp/2")))
  /\ (AuthzBuilderFor st "otlp/2" = None
      /\ AuthzFor st logger "otlp/2" ∅
         = (None, Some (errorString "no builders for otlp/2"))).
Proof.
  cbv zeta.
  assert (H1 : registry (@init unit unit) !! ComponentType "otlp/2" = None)
    by apply lookup_empty.
  assert (H2 : authzRegistry (@init unit unit) !! ComponentType "otlp/2" = None)
    by apply lookup_empty.
  split; [by split|].
  destruct (unregistered_no_builder (@init unit unit) "otlp/2"
              {| logger_values := []; logger_v := 0 |} ∅) as [Hp Ha].
  split; [exact (Hp H1) | exact (Ha H2)].
Defined.

Lemma portFromEndpoint_localhost_4317 :
  ColonDigitRun "localhost:4317"
  /\ portFromEndpoint "localhost:4317" = (4317, None).
Proof.
  assert (Hrun : ColonDigitRun "localhost:4317")
    by (apply MatchString_spec; reflexivity).
  split; [exact Hrun|].
  destruct (portFromEndpoint_first_run "localhost:4317" Hrun)
    as (pre & ds & rest & _ & Hfind & _ & Hok).
  vm_compute in Hfind. injection Hfind as <-.
  apply Hok. vm_compute. split; [reflexivity | discriminate].
Defined.

Lemma portFromEndpoint_empty_examples :
  ~ ColonDigitRun "localhost"
  /\ portFromEndpoint "localhost" = (0, Some (errorString "port should not be empty"))
  /\ ~ ColonDigitRun "localhost:abc"
  /\ portFromEndpoint "localhost:abc" = (0, Some (errorString "port should not be empty"))
  /\ (FirstMatch "localhost:0" "localhost" "0" "" /\ decimal_value "0" = 0)
  /\ portFromEndpoint "localhost:0" = (0, Some (errorString "port should not be empty")).
Proof.
  assert (H1 : ~ ColonDigitRun "localhost")
    by (rewrite <- MatchString_spec; vm_compute; discriminate).
  assert (H2 : ~ ColonDigitRun "localhost:abc")
    by (rewrite <- MatchString_spec; vm_compute; discriminate).
  assert (H3 : FirstMatch "localhost:0" "localhost" "0" "" /\ decimal_value "0" = 0).
  { split; [|reflexivity]. repeat split; [exact H1 | discriminate]. }
  split; [exact H1|].
  split; [apply portFromEndpoint_empty; by left|].
  split; [exact H2|].
  split; [apply portFromEndpoint_empty; by left|].
  split; [exact H3|].
  apply portFromEndpoint_empty. right. by exists "localhost", "0", "".
Defined.

Lemma portFromEndpoint_overflow_example :
  let e := "localhost:2147483648" in
  let logger := {| logger_values := []; logger_v := 0 |} in
  let config : Config := {[ KString "endpoint" := VString e ]} in
  FirstMatch e "localhost" "2147483648" ""
  /\ maxInt32 < decimal_value "2147483648"
  /\ portFromEndpoint e = (0, Some (NumError "ParseInt" "2147483648" ErrRange))
  /\ singlePortFromConfigEndpoint (fun n _ => n) logger "otlp" config [] =
       (None,
        [ {| entry_level := LError;
             entry_msg := "couldn't parse the endpoint's port";
             entry_err := Some (NumError "ParseInt" "2147483648" ErrRange);
             entry_kvs := [VString "endpoint"; VString e] |} ]).
Proof.
  cbv zeta.
  assert (Hfm : FirstMatch "localhost:2147483648" "localhost" "2147483648" "").
  { repeat split; [|discriminate].
    rewrite <- MatchString_spec; vm_compute; discriminate. }
  assert (Hover : maxInt32 < decimal_value "2147483648") by (vm_compute; reflexivity).
  split; [exact Hfm|]. split; [exact Hover|].
  destruct (portFromEndpoint_overflow (fun n _ => n) _ _ _ _ Hfm) as [_ Hovf].
  destruct (Hovf Hover) as [Hp Hlog].
  split; [exact Hp|].
  apply (Hlog {| logger_values := []; logger_v := 0 |} "otlp"
              {[ KString "endpoint" := VString "localhost:2147483648" ]} []).
  vm_compute. reflexivity.
Defined.

Lemma singlePort_graceful_examples :
  let logger := {| logger_values := []; logger_v := 0 |} in
  let PortName := fun (n : string) (_ : Z) => n in
  (singlePortFromConfigEndpoint PortName logger "otlp" ∅ []).1 = None
  /\ (singlePortFromConfigEndpoint PortName logger "otlp"
        {[ KString "endpoint" := VInt 4317 ]} []).1 = None
  /\ (singlePortFromConfigEndpoint PortName logger "otlp"
        {[ KString "endpoint" := VString "localhost:abc" ]} []).1 = None.
Proof.
  cbv zeta. split; [|split]; apply singlePort_graceful.
  - left. vm_compute. reflexivity.
  - right; left. exists (VInt 4317). split; [vm_compute; reflexivity | discriminate].
  - right; right. exists "localhost:abc", errPortEmpty.
    split; vm_compute; reflexivity.
Defined.

Lemma singlePort_success_otlp :
  let logger := {| logger_values := []; logger_v := 0 |} in
  let PortName := fun (n : string) (_ : Z) => n in
  let config : Config := {[ KString "endpoint" := VString "0.0.0.0:4317" ]} in
  (config !! KString endpointKey = Some (VString "0.0.0.0:4317")
   /\ portFromEndpoint "0.0.0.0:4317" = (4317, None))
  /\ singlePortFromConfigEndpoint PortName logger "otlp" config [] =
       (Some {| Name := PortName "otlp" 4317; Port := 4317 |}, []).
Proof.
  cbv zeta.
  assert (Hcfg : ({[ KString "endpoint" := VString "0.0.0.0:4317" ]} : Config)
                   !! KString endpointKey = Some (VString "0.0.0.0:4317"))
    by (vm_compute; reflexivity).
  assert (Hp : portFromEndpoint "0.0.0.0:4317" = (4317, None))
    by (vm_compute; reflexivity).
  split; [by split|].
  exact (singlePort_success (fun n _ => n) {| logger_values := []; logger_v := 0 |}
           "otlp" _ [] _ _ Hcfg Hp).
Defined.

(** C4, as stated, fails: the endpoint "localhost:70000" yields a
    descriptor with port 70000. *)
Lemma singlePort_port_above_65535 :
  exists sp sink',
    singlePortFromConfigEndpoint (fun n _ => n)
      {| logger_values := []; logger_v := 0 |} "otlp"
      {[ KString "endpoint" := VString "localhost:70000" ]} [] = (Some sp, sink')
    /\ Port sp = 70000
    /\ ~ (1 <= Port sp <= 65535).
Proof.
  exists {| Name := "otlp"; Port := 70000 |}, [].
  split; [vm_compute; reflexivity|]. split; [reflexivity|]. simpl. lia.
Qed.

Lemma singlePort_port_range_70000 :
  singlePortFromConfigEndpoint (fun n _ => n)
    {| logger_values := []; logger_v := 0 |} "otlp"
    {[ KString "endpoint" := VString "localhost:70000" ]} []
  = (Some {| Name := "otlp"; Port := 70000 |}, [])
  /\ 1 <= Port {| Name := "otlp"; Port := 70000 |} <= 2147483647.
Proof.
  assert (H : singlePortFromConfigEndpoint (fun n _ => n)
                {| logger_values := []; logger_v := 0 |} "otlp"
                {[ KString "endpoint" := VString "localhost:70000" ]} []
              = (Some {| Name := "otlp"; Port := 70000 |}, []))
    by (vm_compute; reflexivity).
  split; [exact H|].
  exact (singlePort_port_range _ _ _ _ _ _ _ H).
Defined.

(** * Further properties of the package *)

(** ** More on [portFromEndpoint] *)

Lemma append_empty_r (s : string) : s +:+ EmptyString = s.
Proof.
  induction s as [|c s IH]; [done|].
  change (String c (s +:+ EmptyString) = String c s). by rewrite IH.
Qed.

Lemma FirstMatch_bare ds :
  ds <> EmptyString -> all_digits ds = true ->
  FirstMatch (String colon ds) EmptyString ds EmptyString.
Proof.
  intros Hne Hds. unfold FirstMatch. simpl. rewrite append_empty_r.
  repeat split; try done. apply ColonDigitRun_empty.
Qed.

(** X1. [portFromEndpoint] has three kinds of result and no other: a port
    between 1 and 2147483647 with a nil error; port 0 with "port should not
    be empty"; port 0 with the range error of [ParseInt] on a digit string
    whose value exceeds 2147483647.  It never returns a syntax error, a
    negative port, or a port together with an error. *)
Theorem portFromEndpoint_outcomes e :
  (exists p, portFromEndpoint e = (p, None) /\ 1 <= p <= maxInt32)
  \/ portFromEndpoint e = (0, Some errPortEmpty)
  \/ (exists ds, portFromEndpoint e = (0, Some (NumError "ParseInt" ds ErrRange))
                 /\ all_digits ds = true /\ maxInt32 < decimal_value ds).
Proof.
  destruct (decide (ColonDigitRun e)) as [Hrun|Hno].
  - destruct (FirstMatch_exists e Hrun) as (pre & ds & rest & Hfm).
    rewrite (portFromEndpoint_first _ _ _ _ Hfm).
    destruct Hfm as (_ & _ & _ & Hds & _).
    pose proof (decimal_value_nonneg _ Hds) as Hv.
    destruct (Z.eqb_spec (decimal_value ds) 0) as [Hz|Hnz]; [by right; left|].
    destruct (Z.leb_spec (decimal_value ds) maxInt32) as [Hfit|Hover].
    + left. exists (decimal_value ds). split; [done | lia].
    + right; right. by exists ds.
  - right; left. by apply portFromEndpoint_no_run.
Qed.

(** X2. Only the first colon-digit run counts: the text before it and the
    text after it do not change the result, which is that of the bare run. *)
Theorem portFromEndpoint_ignores_context e pre ds rest :
  FirstMatch e pre ds rest ->
  portFromEndpoint e = portFromEndpoint (String colon ds).
Proof.
  intros Hfm. rewrite (portFromEndpoint_first _ _ _ _ Hfm).
  destruct Hfm as (_ & _ & Hne & Hds & _).
  by rewrite (portFromEndpoint_first _ _ _ _ (FirstMatch_bare ds Hne Hds)).
Qed.

(** X3. A leading zero in the port digits does not change the port that
    is returned: [pre:ds...] yields port [p] exactly when [pre:0ds...] does. *)
Theorem portFromEndpoint_leading_zero e pre ds rest p :
  FirstMatch e pre ds rest ->
  portFromEndpoint e = (p, None)
  <-> portFromEndpoint (pre +:+ String colon (String "0" ds +:+ rest)) = (p, None).
Proof.
  intros Hfm.
  assert (Hfm0 : FirstMatch (pre +:+ String colon (String "0" ds +:+ rest))
                   pre (String "0" ds) rest).
  { destruct Hfm as (_ & Hpre & _ & Hds & Hrest).
    repeat split; done. }
  rewrite (portFromEndpoint_first _ _ _ _ Hfm), (portFromEndpoint_first _ _ _ _ Hfm0).
  assert (Hv : decimal_value (String "0" ds) = decimal_value ds).
  { cbn [decimal_value]. change (digit_val "0") with 0. lia. }
  rewrite Hv.
  destruct (decimal_value ds =? 0); [done|].
  destruct (decimal_value ds <=? maxInt32); [done|].
  split; intros [=].
Qed.

Section ExporterMore.

Context {ComponentPortParser DynamicRolePolicy : Type}.

Implicit Types st : @Registries ComponentPortParser DynamicRolePolicy.

(** ** More on the registries *)

Lemma RegisterAll_app st rs1 rs2 :
  RegisterAll st (rs1 ++ rs2) = RegisterAll (RegisterAll st rs1) rs2.
Proof. unfold RegisterAll. by rewrite fold_left_app. Qed.

Lemma RegisterAll_cons st r rs :
  RegisterAll st (r :: rs) = RegisterAll (Register st r.1 r.2) rs.
Proof. reflexivity. Qed.

Lemma RegisterAll_lookup_notin rs : forall st t,
  t ∉ rs.*1 -> registry (RegisterAll st rs) !! t = registry st !! t.
Proof.
  induction rs as [|r rs IH]; intros st t Hnotin; [done|].
  rewrite RegisterAll_cons, IH.
  - unfold Register. simpl. apply lookup_insert_ne.
    intros Heq. apply Hnotin. rewrite fmap_cons, Heq. apply list_elem_of_here.
  - intros Hin. apply Hnotin. rewrite fmap_cons. by apply list_elem_of_further.
Qed.

Lemma AuthzBuilderFor_AuthzRegister st t b n :
  AuthzBuilderFor (AuthzRegister st t b) n =
    if decide (t = ComponentType n) then b else AuthzBuilderFor st n.
Proof.
  unfold AuthzBuilderFor, AuthzRegister. simpl. rewrite lookup_insert.
  by destruct (decide (t = ComponentType n)).
Qed.

(** X4. After [Register(t, f)] with a non-nil [f], [For] succeeds for every
    name [n] whose component type is [t], and the parser it returns is [f]
    applied to the logger, to [n] as given (not to [t]) and to the
    configuration. *)
Theorem For_Register_invokes st t (f : BuilderFn) n logger config :
  ComponentType n = t ->
  For (Register st t (Some f)) logger n config = (f logger n config, None).
Proof.
  intros Hn. unfold For. rewrite BuilderFor_Register.
  by destruct (decide (t = ComponentType n)).
Qed.

(** X5. Registering a nil builder makes the name registered without making
    it usable: [IsRegistered] answers true, while [BuilderFor] returns nil
    and [For] fails with "no builders for <name>". *)
Theorem Register_nil_builder st t logger config :
  ComponentType t = t ->
  IsRegistered (Register st t None) t = true
  /\ BuilderFor (Register st t None) t = None
  /\ For (Register st t None) logger t config
     = (None, Some (errorString ("no builders for " +:+ t))).
Proof.
  intros Ht. unfold For. rewrite IsRegistered_Register, BuilderFor_Register, Ht.
  by destruct (decide (t = t)).
Qed.

(** X6. Registering twice under one name leaves the tables as if only the
    second registration had happened. *)
Theorem Register_last_wins st t b1 b2 :
  Register (Register st t b1) t b2 = Register st t b2.
Proof.
  unfold Register. simpl. f_equal. apply insert_insert_eq.
Qed.

(** X7. Registrations under different names can be done in either order. *)
Theorem Register_commute st t1 b1 t2 b2 :
  t1 <> t2 ->
  Register (Register st t1 b1) t2 b2 = Register (Register st t2 b2) t1 b1.
Proof.
  intros Hne. unfold Register. simpl. f_equal. by apply insert_insert_ne.
Qed.

(** X8. [Register(t, b)] changes nothing for other names: [BuilderFor] and
    [For] are unchanged for every name whose component type is not [t], and
    [IsRegistered] for every name other than [t]. *)
Theorem Register_other_names st t b n logger config :
  (ComponentType n <> t ->
     BuilderFor (Register st t b) n = BuilderFor st n
     /\ For (Register st t b) logger n config = For st logger n config)
  /\ (n <> t -> IsRegistered (Register st t b) n = IsRegistered st n).
Proof.
  split; intros Hne.
  - unfold For. rewrite BuilderFor_Register.
    by destruct (decide (t = ComponentType n)) as [->|_].
  - rewrite IsRegistered_Register. by destruct (decide (t = n)) as [->|_].
Qed.

(** X9. There is no way back: a name that is registered stays registered
    through any further registrations in either table. *)
Theorem IsRegistered_stays st n rs (ars : list (string * AuthzBuilder)) :
  IsRegistered st n = true ->
  IsRegistered (RegisterAll st rs) n = true
  /\ IsRegistered (fold_left (fun st r => AuthzRegister st r.1 r.2) ars st) n = true.
Proof.
  intros Hreg. split.
  - revert st Hreg. induction rs as [|r rs IH]; intros st Hreg; [done|].
    rewrite RegisterAll_cons. apply IH. rewrite IsRegistered_Register.
    by destruct (decide (r.1 = n)).
  - revert st Hreg. induction ars as [|r ars IH]; intros st Hreg; [done|].
    simpl. by apply IH.
Qed.

(** X10. In a sequence of registrations the last one under a name decides:
    if [(t, b)] is followed by no further registration of [t], then
    [BuilderFor] returns [b] for every name whose component type is [t]. *)
Theorem RegisterAll_last_wins st rs1 t b rs2 n :
  t ∉ rs2.*1 ->
  ComponentType n = t ->
  BuilderFor (RegisterAll st (rs1 ++ (t, b) :: rs2)) n = b.
Proof.
  intros Hnotin Hn. rewrite RegisterAll_app, RegisterAll_cons.
  unfold BuilderFor. rewrite Hn, RegisterAll_lookup_notin by done.
  unfold Register. simpl. by rewrite lookup_insert_eq.
Qed.

(** X11. [For] returns an error exactly when [BuilderFor] returns nil; the
    error then is "no builders for <name>" and comes with no parser; and a
    success of [For] implies that the component type of the name is
    registered. *)
Theorem For_fails_iff_nil st logger n config :
  ((For st logger n config).2 = None <-> BuilderFor st n <> None)
  /\ ((For st logger n config).2 <> None ->
        For st logger n config = (None, Some (errorString ("no builders for " +:+ n))))
  /\ ((For st logger n config).2 = None ->
        IsRegistered st (ComponentType n) = true).
Proof.
  unfold For, BuilderFor, IsRegistered.
  destruct (registry st !! ComponentType n) as [[f|]|]; simpl.
  - repeat split; done.
  - repeat split; done.
  - repeat split; done.
Qed.

(** X12. The authorization registry has the same round trip: after
    [AuthzRegister(t, b)], [AuthzBuilderFor] returns [b] for every name whose
    component type is [t], and for a non-nil [b] [AuthzFor] returns the
    parser [b] builds from the logger, the name as given and the
    configuration. *)
Theorem AuthzFor_AuthzRegister st t b n logger config :
  ComponentType n = t ->
  AuthzBuilderFor (AuthzRegister st t b) n = b
  /\ forall f, b = Some f ->
       AuthzFor (AuthzRegister st t b) logger n config = (f logger n config, None).
Proof.
  intros Hn. unfold AuthzFor. rewrite AuthzBuilderFor_AuthzRegister.
  destruct (decide (t = ComponentType n)); [|done].
  split; [done|]. by intros f ->.
Qed.

(** X13. In the authorization registry too the last registration under a
    name wins, registrations under different names commute, and a
    registration leaves [AuthzBuilderFor] and [AuthzFor] unchanged for names
    of another component type. *)
Theorem AuthzRegister_updates st t1 b1 t2 b2 n logger config :
  AuthzRegister (AuthzRegister st t1 b1) t1 b2 = AuthzRegister st t1 b2
  /\ (t1 <> t2 ->
        AuthzRegister (AuthzRegister st t1 b1) t2 b2
        = AuthzRegister (AuthzRegister st t2 b2) t1 b1)
  /\ (ComponentType n <> t1 ->
        AuthzBuilderFor (AuthzRegister st t1 b1) n = AuthzBuilderFor st n
        /\ AuthzFor (AuthzRegister st t1 b1) logger n config
           = AuthzFor st logger n config).
Proof.
  split; [|split].
  - unfold AuthzRegister. simpl. f_equal. apply insert_insert_eq.
  - intros Hne. unfold AuthzRegister. simpl. f_equal. by apply insert_insert_ne.
  - intros Hne. unfold AuthzFor. rewrite AuthzBuilderFor_AuthzRegister.
    by destruct (decide (t1 = ComponentType n)) as [->|_].
Qed.

(** ** More on reading the endpoint *)

Variable PortName : string -> Z -> string.

Lemma snoc_neq {A} (l : list A) (x : A) : l ++ [x] <> l.
Proof.
  intros Heq. apply (f_equal length) in Heq.
  rewrite length_app in Heq. simpl in Heq. lia.
Qed.


(** X15. [singlePortFromConfigEndpoint] only ever appends to the log, and
    at most one entry per call. *)
Theorem singlePort_sink_extends logger name (config : Config) sink :
  exists entries,
    (singlePortFromConfigEndpoint PortName logger name config sink).2 = sink ++ entries
    /\ (length entries <= 1)%nat.
Proof.
  unfold singlePortFromConfigEndpoint, getAddressFromConfig, Log_Error, Log_Info.
  destruct (config !! KString endpointKey) as [v|]; [|eexists [_]; by split].
  destruct v;
    try (eexists [_]; split; [reflexivity | simpl; lia]);
    try (exists []; split; [by rewrite app_nil_r | simpl; lia]).
  destruct (portFromEndpoint s) as [p [err|]].
  - eexists [_]. split; [reflexivity | simpl; lia].
  - exists []. split; [by rewrite app_nil_r | simpl; lia].
Qed.

(** X16. The logger is never used for control flow: the descriptor
    returned is the same whatever the logger and whatever the log held
    before. *)
Theorem singlePort_logger_independent logger1 logger2 name (config : Config)
    sink1 sink2 :
  (singlePortFromConfigEndpoint PortName logger1 name config sink1).1
  = (singlePortFromConfigEndpoint PortName logger2 name config sink2).1.
Proof.
  unfold singlePortFromConfigEndpoint, getAddressFromConfig.
  destruct (config !! KString endpointKey) as [v|]; [|done].
  destruct v; try done.
  by destruct (portFromEndpoint s) as [p [err|]].
Qed.

(** X17. Only the "endpoint" entry of the configuration is read: adding,
    replacing or removing any other key changes neither the descriptor nor
    what is logged. *)
Theorem singlePort_other_keys logger name (config : Config) sink k v :
  k <> KString endpointKey ->
  singlePortFromConfigEndpoint PortName logger name (<[k := v]> config) sink
  = singlePortFromConfigEndpoint PortName logger name config sink
  /\ singlePortFromConfigEndpoint PortName logger name (delete k config) sink
     = singlePortFromConfigEndpoint PortName logger name config sink.
Proof.
  intros Hk. unfold singlePortFromConfigEndpoint, getAddressFromConfig.
  by rewrite lookup_insert_ne, lookup_delete_ne.
Qed.

(** X18. A descriptor is returned only for a string "endpoint" whose port
    parses: then nothing has been logged, the descriptor's port is the
    parsed port and its name is [PortName] of the exporter name and that
    port. *)
Theorem singlePort_descriptor_origin logger name (config : Config) sink sp sink' :
  singlePortFromConfigEndpoint PortName logger name config sink = (Some sp, sink') ->
  sink' = sink
  /\ Name sp = PortName name (Port sp)
  /\ exists e, config !! KString endpointKey = Some (VString e)
               /\ portFromEndpoint e = (Port sp, None).
Proof.
  unfold singlePortFromConfigEndpoint, getAddressFromConfig.
  destruct (config !! KString endpointKey) as [v|]; [|done].
  destruct v; try done.
  destruct (portFromEndpoint s) as [p [err|]] eqn:Hp; [done|].
  intros [= <- <-]. simpl. eauto.
Qed.

(** X19. An error-level entry is logged exactly when "endpoint" is present,
    is not nil, and is not a string whose port parses.  A missing key and a
    nil value never produce an error-level entry. *)
Theorem singlePort_error_logged_iff logger name (config : Config) sink :
  (exists en,
      (singlePortFromConfigEndpoint PortName logger name config sink).2 = sink ++ [en]
      /\ entry_level en = LError)
  <-> (exists v, config !! KString endpointKey = Some v
                 /\ v <> VNil
                 /\ forall e, v = VString e -> (portFromEndpoint e).2 <> None).
Proof.
  unfold singlePortFromConfigEndpoint, getAddressFromConfig, Log_Error, Log_Info.
  destruct (config !! KString endpointKey) as [v|] eqn:Hv.
  - destruct v as [|s| | | | |];
      try (split; [intros _; eexists; split; [reflexivity|]; split; [done|]; by intros ? [=]
                  | intros _; eexists; split; [reflexivity | done]]).
    + split.
      * intros (en & Heq & _). simpl in Heq. symmetry in Heq. by apply snoc_neq in Heq.
      * intros (v & [= <-] & Hnil & _). done.
    + destruct (portFromEndpoint s) as [p [err|]] eqn:Hp; simpl.
      * split; [|intros _; eexists; split; [reflexivity | done]].
        intros _. exists (VString s). split; [done|]. split; [done|].
        intros e [= <-]. by rewrite Hp.
      * split.
        -- intros (en & Heq & _). symmetry in Heq. by apply snoc_neq in Heq.
        -- intros (v & [= <-] & _ & Hbad). destruct (Hbad s eq_refl). by rewrite Hp.
  - split.
    + intros (en & Heq & Hlvl). simpl in Heq. apply app_inv_head in Heq.
      injection Heq as <-. done.
    + intros (v & [=] & _).
Qed.

End ExporterMore.

(** ** Concrete runs of the further properties *)

Lemma portFromEndpoint_ignores_context_url :
  FirstMatch "http://collector:4317/v1/traces" "http://collector" "4317" "/v1/traces"
  /\ portFromEndpoint "http://collector:4317/v1/traces" = portFromEndpoint ":4317".
Proof.
  assert (Hfm : FirstMatch "http://collector:4317/v1/traces"
                  "http://collector" "4317" "/v1/traces") by compute_done.
  split; [exact Hfm|].
  exact (portFromEndpoint_ignores_context _ _ _ _ Hfm).
Defined.

Lemma portFromEndpoint_leading_zero_url :
  FirstMatch "collector:4317/v1" "collector" "4317" "/v1"
  /\ (portFromEndpoint "collector:4317/v1" = (4317, None)
      <-> portFromEndpoint "collector:04317/v1" = (4317, None)).
Proof.
  assert (Hfm : FirstMatch "collector:4317/v1" "collector" "4317" "/v1")
    by compute_done.
  split; [exact Hfm|].
  exact (portFromEndpoint_leading_zero _ _ _ _ 4317 Hfm).
Defined.

Lemma For_Register_invokes_otlp :
  let f : @BuilderFn string := fun _ name _ => Some name in
  let logger := {| logger_values := []; logger_v := 0 |} in
  ComponentType "otlp/2" = "otlp"
  /\ For (Register (@init string unit) "otlp" (Some f)) logger "otlp/2" ∅
     = (Some "otlp/2", None).
Proof.
  cbv zeta. split; [reflexivity|].
  exact (For_Register_invokes (@init string unit) "otlp" (fun _ name _ => Some name)
           "otlp/2" {| logger_values := []; logger_v := 0 |} ∅ eq_refl).
Defined.

Lemma Register_nil_builder_otlp :
  let logger := {| logger_values := []; logger_v := 0 |} in
  ComponentType "otlp" = "otlp"
  /\ (IsRegistered (Register (@init unit unit) "otlp" None) "otlp" = true
      /\ BuilderFor (Register (@init unit unit) "otlp" None) "otlp" = None
      /\ For (Register (@init unit unit) "otlp" None) logger "otlp" ∅
         = (None, Some (errorString ("no builders for " +:+ "otlp")))).
Proof.
  cbv zeta. split; [reflexivity|].
  exact (Register_nil_builder (@init unit unit) "otlp"
           {| logger_values := []; logger_v := 0 |} ∅ eq_refl).
Defined.

Lemma Register_commute_otlp_jaeger :
  let b1 : @Builder unit := Some (fun _ _ _ => Some tt) in
  let b2 : @Builder unit := Some (fun _ _ _ => None) in
  "otlp" <> "jaeger"
  /\ Register (Register (@init unit unit) "otlp" b1) "jaeger" b2
     = Register (Register (@init unit unit) "jaeger" b2) "otlp" b1.
Proof.
  cbv zeta. assert (Hne : "otlp" <> "jaeger") by discriminate.
  split; [exact Hne|].
  exact (Register_commute (@init unit unit) "otlp" _ "jaeger" _ Hne).
Defined.

Lemma Register_other_names_jaeger :
  let b : @Builder unit := Some (fun _ _ _ => Some tt) in
  let logger := {| logger_values := []; logger_v := 0 |} in
  (ComponentType "jaeger/1" <> "otlp" /\ "jaeger/1" <> "otlp")
  /\ (BuilderFor (Register (@init unit unit) "otlp" b) "jaeger/1"
        = BuilderFor (@init unit unit) "jaeger/1"
      /\ For (Register (@init unit unit) "otlp" b) logger "jaeger/1" ∅
        = For (@init unit unit) logger "jaeger/1" ∅)
  /\ IsRegistered (Register (@init unit unit) "otlp" b) "jaeger/1"
     = IsRegistered (@init unit unit) "jaeger/1".
Proof.
  cbv zeta.
  assert (H1 : ComponentType "jaeger/1" <> "otlp") by discriminate.
  assert (H2 : "jaeger/1" <> "otlp") by discriminate.
  destruct (Register_other_names (@init unit unit) "otlp"
              (Some (fun _ _ _ => Some tt)) "jaeger/1"
              {| logger_values := []; logger_v := 0 |} ∅) as [Hb Hi].
  split; [by split|]. split; [exact (Hb H1) | exact (Hi H2)].
Defined.

Lemma IsRegistered_stays_otlp :
  let st := Register (@init unit unit) "otlp" None in
  let rs : list (string * @Builder unit) :=
    [("jaeger", None); ("otlp", Some (fun _ _ _ => None))] in
  let ars : list (string * @AuthzBuilder unit) := [("otlp", None)] in
  IsRegistered st "otlp" = true
  /\ (IsRegistered (RegisterAll st rs) "otlp" = true
      /\ IsRegistered (fold_left (fun st r => AuthzRegister st r.1 r.2) ars st) "otlp"
         = true).
Proof.
  cbv zeta.
  assert (H : IsRegistered (Register (@init unit unit) "otlp" None) "otlp" = true)
    by (vm_compute; reflexivity).
  split; [exact H|].
  exact (IsRegistered_stays _ "otlp" _ _ H).
Defined.

Lemma RegisterAll_last_wins_otlp :
  let b1 : @Builder unit := Some (fun _ _ _ => Some tt) in
  let b2 : @Builder unit := Some (fun _ _ _ => None) in
  let rs2 : list (string * @Builder unit) := [("jaeger", None)] in
  (("otlp" ∉ rs2.*1) /\ ComponentType "otlp/2" = "otlp")
  /\ BuilderFor (RegisterAll (@init unit unit) ([("otlp", b1)] ++ ("otlp", b2) :: rs2))
       "otlp/2" = b2.
Proof.
  cbv zeta.
  assert (H1 : "otlp" ∉ ([("jaeger", None)] : list (string * @Builder unit)).*1).
  { simpl. rewrite list_elem_of_singleton. discriminate. }
  split; [by split|].
  exact (RegisterAll_last_wins (@init unit unit) _ "otlp" _ _ "otlp/2" H1 eq_refl).
Defined.

Lemma For_fails_iff_nil_init :
  let logger := {| logger_values := []; logger_v := 0 |} in
  (For (@init unit unit) logger "otlp" ∅).2 <> None
  /\ For (@init unit unit) logger "otlp" ∅
     = (None, Some (errorString ("no builders for " +:+ "otlp"))).
Proof.
  cbv zeta.
  assert (H : (For (@init unit unit) {| logger_values := []; logger_v := 0 |}
                 "otlp" ∅).2 <> None) by (vm_compute; discriminate).
  split; [exact H|].
  exact (proj1 (proj2 (For_fails_iff_nil (@init unit unit)
                         {| logger_values := []; logger_v := 0 |} "otlp" ∅)) H).
Defined.

Lemma AuthzFor_AuthzRegister_otlp :
  let f : @AuthzBuilderFn unit :=
    fun _ name _ => Some {| ParserName := name; GetRBACRules := [tt] |} in
  let logger := {| logger_values := []; logger_v := 0 |} in
  ComponentType "otlp/2" = "otlp"
  /\ AuthzBuilderFor (AuthzRegister (@init unit unit) "otlp" (Some f)) "otlp/2" = Some f
  /\ AuthzFor (AuthzRegister (@init unit unit) "otlp" (Some f)) logger "otlp/2" ∅
     = (Some {| ParserName := "otlp/2"; GetRBACRules := [tt] |}, None).
Proof.
  cbv zeta. split; [reflexivity|].
  destruct (AuthzFor_AuthzRegister (@init unit unit) "otlp"
              (Some (fun _ name _ => Some {| ParserName := name; GetRBACRules := [tt] |}))
              "otlp/2" {| logger_values := []; logger_v := 0 |} ∅ eq_refl) as [Hb Hf].
  split; [exact Hb|]. exact (Hf _ eq_refl).
Defined.

Lemma AuthzRegister_updates_otlp :
  let st := @init unit unit in
  let logger := {| logger_values := []; logger_v := 0 |} in
  ("otlp" <> "jaeger" /\ ComponentType "jaeger/1" <> "otlp")
  /\ AuthzRegister (AuthzRegister st "otlp" None) "jaeger" None
     = AuthzRegister (AuthzRegister st "jaeger" None) "otlp" None
  /\ AuthzBuilderFor (AuthzRegister st "otlp" None) "jaeger/1"
     = AuthzBuilderFor st "jaeger/1"
  /\ AuthzFor (AuthzRegister st "otlp" None) logger "jaeger/1" ∅
     = AuthzFor st logger "jaeger/1" ∅.
Proof.
  cbv zeta.
  assert (H1 : "otlp" <> "jaeger") by discriminate.
  assert (H2 : ComponentType "jaeger/1" <> "otlp") by discriminate.
  destruct (AuthzRegister_updates (@init unit unit) "otlp" None "jaeger" None
              "jaeger/1" {| logger_values := []; logger_v := 0 |} ∅)
    as (_ & Hc & Hf).
  split; [by split|]. split; [exact (Hc H1) | exact (Hf H2)].
Defined.


Lemma singlePort_other_keys_timeout :
  let logger := {| logger_values := []; logger_v := 0 |} in
  let config : Config := {[ KString "endpoint" := VString "0.0.0.0:4317" ]} in
  KString "timeout" <> KString endpointKey
  /\ singlePortFromConfigEndpoint (fun n _ => n) logger "otlp"
       (<[KString "timeout" := VInt 5]> config) []
     = singlePortFromConfigEndpoint (fun n _ => n) logger "otlp" config []
  /\ singlePortFromConfigEndpoint (fun n _ => n) logger "otlp"
       (delete (KString "timeout") config) []
     = singlePortFromConfigEndpoint (fun n _ => n) logger "otlp" config [].
Proof.
  cbv zeta.
  assert (H : KString "timeout" <> KString endpointKey) by discriminate.
  split; [exact H|].
  exact (singlePort_other_keys (fun n _ => n) {| logger_values := []; logger_v := 0 |}
           "otlp" _ [] _ (VInt 5) H).
Defined.

Lemma singlePort_descriptor_origin_otlp :
  let logger := {| logger_values := []; logger_v := 0 |} in
  let config : Config := {[ KString "endpoint" := VString "0.0.0.0:4317" ]} in
  let sp := {| Name := "otlp"; Port := 4317 |} in
  singlePortFromConfigEndpoint (fun n _ => n) logger "otlp" config [] = (Some sp, [])
  /\ ([] = ([] : Sink)
      /\ Name sp = "otlp"
      /\ exists e, config !! KString endpointKey = Some (VString e)
                   /\ portFromEndpoint e = (Port sp, None)).
Proof.
  cbv zeta.
  assert (H : singlePortFromConfigEndpoint (fun n _ => n)
                {| logger_values := []; logger_v := 0 |} "otlp"
                {[ KString "endpoint" := VString "0.0.0.0:4317" ]} []
              = (Some {| Name := "otlp"; Port := 4317 |}, []))
    by (vm_compute; reflexivity).
  split; [exact H|].
  exact (singlePort_descriptor_origin (fun n _ => n) _ _ _ _ _ _ H).
Defined.
